(** * The upload form of [client/src/App.tsx]

    A shallow embedding of the three handlers of the [App] component
    ([handleFileChange], [removeFile], [handleSubmit]) and of what it
    renders ([FileSelector] and the tree [App] returns, styling aside),
    together with the part of the JavaScript host they rely on:
    dynamically typed values, truthiness, property access,
    [JSON.stringify], objects with ordered own keys, and a small
    state-and-exception monad that records the observable effects
    ([fetch], [alert], [console.error]). *)

From Stdlib Require Import List String Ascii ZArith Bool Lia DecimalString.
Import ListNotations.
Local Open Scope string_scope.
Local Open Scope Z_scope.

Set Warnings "-register-all".

(** ** JavaScript values *)

(** A Number as [Number::toString] takes it apart: a zero, an infinity
    (what a JSON number such as [1e999] parses to), or
    [digits * 10 ^ exponent] with its sign, where [digits] and [exponent]
    are those of the shortest decimal that denotes the double. [NaN] is
    left out: [JSON.parse] never yields it. *)
Inductive JsNumber : Type :=
| NumZero (negative : bool)
| NumFinite (negative : bool) (digits : positive) (exponent : Z)
| NumInfinite (negative : bool).

(** Values of type [any]: what [response.json()] yields, extended with
    [undefined] (the result of reading a property that is not there).
    A string is its text in UTF-8, a lone surrogate being written as its
    three-byte form; the members of an object are listed in the object's
    own enumeration order. *)
Inductive JsValue : Type :=
| JUndefined
| JNull
| JBool (b : bool)
| JNum (n : JsNumber)
| JStr (s : string)
| JArr (items : list JsValue)
| JObj (members : list (string * JsValue)).

(** The string [""]. *)
Definition empty_string : string := EmptyString.

Definition string_is_empty (s : string) : bool :=
  match s with
  | EmptyString => true
  | String _ _ => false
  end.

(** ToBoolean: [undefined], [null], [false], [0] and the empty string are
    falsy, everything else (every array and object included) is truthy. *)
Definition truthy (v : JsValue) : bool :=
  match v with
  | JUndefined | JNull => false
  | JBool b => b
  | JNum (NumZero _) => false
  | JNum (NumFinite _ _ _) | JNum (NumInfinite _) => true
  | JStr s => negb (string_is_empty s)
  | JArr _ | JObj _ => true
  end.

(** [a || b] *)
Definition js_or (a b : JsValue) : JsValue :=
  if truthy a then a else b.

(** A thrown [Error] object; [err.message] is all the component reads. *)
Record JsError : Type := mkError { message : JsValue }.

(** Outcome of an operation that may throw. *)
Inductive Result (A : Type) : Type :=
| Ok (a : A)
| Throw (e : JsError).
Arguments Ok {A} a.
Arguments Throw {A} e.

(** The [TypeError] raised on reading a property of [undefined] or [null]
    (message in the wording of V8). *)
Definition type_error_reading (what prop : string) : JsError :=
  mkError (JStr ("Cannot read properties of " ++ what ++
                 " (reading '" ++ prop ++ "')")).

Fixpoint lookup_member (prop : string) (members : list (string * JsValue))
  : JsValue :=
  match members with
  | [] => JUndefined
  | (k, v) :: rest => if String.eqb k prop then v else lookup_member prop rest
  end.

(** [v.prop] for a property name that is not a built-in member of
    primitives or arrays (here: [error] and [uploaded_files]). *)
Definition get_prop (v : JsValue) (prop : string) : Result JsValue :=
  match v with
  | JUndefined => Throw (type_error_reading "undefined" prop)
  | JNull => Throw (type_error_reading "null" prop)
  | JObj members => Ok (lookup_member prop members)
  | JBool _ | JNum _ | JStr _ | JArr _ => Ok JUndefined
  end.

(** ** [JSON.stringify(value, null, 2)] *)

Definition LF : string := String "010"%char EmptyString.
Definition DQUOTE : string := String "034"%char EmptyString.
Definition gap : string := "  ".

Definition hex_digit (n : nat) : string :=
  String (match n with
          | 0%nat => "0" | 1%nat => "1" | 2%nat => "2" | 3%nat => "3"
          | 4%nat => "4" | 5%nat => "5" | 6%nat => "6" | 7%nat => "7"
          | 8%nat => "8" | 9%nat => "9" | 10%nat => "a" | 11%nat => "b"
          | 12%nat => "c" | 13%nat => "d" | 14%nat => "e" | _ => "f"
          end%char) EmptyString.

Definition quote_char (c : ascii) : string :=
  let n := nat_of_ascii c in
  if Nat.eqb n 34 then "\" ++ DQUOTE
  else if Nat.eqb n 92 then "\\"
  else if Nat.eqb n 8 then "\b"
  else if Nat.eqb n 12 then "\f"
  else if Nat.eqb n 10 then "\n"
  else if Nat.eqb n 13 then "\r"
  else if Nat.eqb n 9 then "\t"
  else if Nat.ltb n 32 then
    "\u00" ++ hex_digit (Nat.div n 16) ++ hex_digit (Nat.modulo n 16)
  else String c EmptyString.

(** The bytes [ED A0..BF 80..BF] stand for a lone surrogate, the code
    unit [D800 + ...]; no well-formed text contains them. *)
Definition is_lone_surrogate (c1 c2 c3 : ascii) : bool :=
  Nat.eqb (nat_of_ascii c1) 237
  && Nat.leb 160 (nat_of_ascii c2) && Nat.leb (nat_of_ascii c2) 191
  && Nat.leb 128 (nat_of_ascii c3) && Nat.leb (nat_of_ascii c3) 191.

(** [\uXXXX] for the surrogate [D000 + (c2 - 128) * 64 + (c3 - 128)]. *)
Definition quote_surrogate (c2 c3 : ascii) : string :=
  let low := ((nat_of_ascii c2 - 128) * 64 + (nat_of_ascii c3 - 128))%nat in
  "\ud" ++ hex_digit (Nat.div low 256)
  ++ hex_digit (Nat.modulo (Nat.div low 16) 16)
  ++ hex_digit (Nat.modulo low 16).

Fixpoint quote_chars (s : string) : string :=
  match s with
  | EmptyString => EmptyString
  | String c1 rest =>
      match rest with
      | String c2 (String c3 rest') =>
          if is_lone_surrogate c1 c2 c3 then
            quote_surrogate c2 c3 ++ quote_chars rest'
          else quote_char c1 ++ quote_chars rest
      | _ => quote_char c1 ++ quote_chars rest
      end
  end.

(** QuoteJSONString *)
Definition quote_json_string (s : string) : string :=
  DQUOTE ++ quote_chars s ++ DQUOTE.

Fixpoint zeros (m : nat) : string :=
  match m with
  | O => EmptyString
  | S m' => String "0" (zeros m')
  end.

(** The text without its trailing zeros, and how many there were. *)
Fixpoint strip_trailing_zeros (s : string) : string * nat :=
  match s with
  | EmptyString => (EmptyString, O)
  | String c rest =>
      let (kept, dropped) := strip_trailing_zeros rest in
      if string_is_empty kept && Ascii.eqb c "0" then (EmptyString, S dropped)
      else (String c kept, dropped)
  end.

Definition decimal (z : Z) : string :=
  NilZero.string_of_int (Z.to_int z).

(** [Number::toString] for the positive number whose [k] digits are
    [digits] and which lies between [10 ^ (n - 1)] and [10 ^ n]. *)
Definition format_digits (digits : string) (n : Z) : string :=
  let k := Z.of_nat (String.length digits) in
  if (k <=? n) && (n <=? 21) then
    digits ++ zeros (Z.to_nat (n - k))
  else if (0 <? n) && (n <=? 21) then
    substring 0 (Z.to_nat n) digits ++ "."
    ++ substring (Z.to_nat n) (Z.to_nat (k - n)) digits
  else if (-6 <? n) && (n <=? 0) then
    "0." ++ zeros (Z.to_nat (- n)) ++ digits
  else
    let e := n - 1 in
    let sign := if e <? 0 then "-" else "+" in
    let mantissa :=
      if k =? 1 then digits
      else substring 0 1 digits ++ "."
           ++ substring 1 (Z.to_nat (k - 1)) digits in
    mantissa ++ "e" ++ sign ++ decimal (Z.abs e).

(** [Number::toString] in radix 10. *)
Definition number_to_string (x : JsNumber) : string :=
  match x with
  | NumZero _ => "0"
  | NumInfinite negative =>
      if negative then "-Infinity" else "Infinity"
  | NumFinite negative digits exponent =>
      let (shortest, dropped) :=
        strip_trailing_zeros (NilEmpty.string_of_uint (Pos.to_uint digits)) in
      let n := Z.of_nat (String.length shortest)
               + exponent + Z.of_nat dropped in
      (if negative then "-" else EmptyString) ++ format_digits shortest n
  end.

(** A number in JSON text: a finite one as [Number::toString] prints it,
    an infinity as [null]. *)
Definition number_to_json (x : JsNumber) : string :=
  match x with
  | NumInfinite _ => "null"
  | _ => number_to_string x
  end.

(** SerializeJSONProperty at the given current indentation. [None] is
    [undefined]: an [undefined] array element is written [null] and an
    [undefined] member is left out. *)
Fixpoint stringify_at (indent : string) (v : JsValue) {struct v}
  : option string :=
  match v with
  | JUndefined => None
  | JNull => Some "null"
  | JBool true => Some "true"
  | JBool false => Some "false"
  | JNum x => Some (number_to_json x)
  | JStr s => Some (quote_json_string s)
  | JArr items =>
      let inner := indent ++ gap in
      let parts :=
        map (fun x => match stringify_at inner x with
                      | Some s => s
                      | None => "null"
                      end) items in
      Some (match parts with
            | [] => "[]"
            | _ => "[" ++ LF ++ inner
                   ++ String.concat ("," ++ LF ++ inner) parts
                   ++ LF ++ indent ++ "]"
            end)
  | JObj members =>
      let inner := indent ++ gap in
      let parts :=
        flat_map (fun kv => match kv with
                            | (k, x) =>
                                match stringify_at inner x with
                                | Some s => [quote_json_string k ++ ": " ++ s]
                                | None => []
                                end
                            end) members in
      Some (match parts with
            | [] => "{}"
            | _ => "{" ++ LF ++ inner
                   ++ String.concat ("," ++ LF ++ inner) parts
                   ++ LF ++ indent ++ "}"
            end)
  end.

Definition JSON_stringify (v : JsValue) : option string :=
  stringify_at EmptyString v.

(** A [${...}] slot of a template literal holding a string or
    [undefined]. *)
Definition template_slot (o : option string) : string :=
  match o with
  | Some s => s
  | None => "undefined"
  end.

(** ** The request and the collaborator *)

Section UploadForm.

(** The host's [File] handle: opaque, never inspected or copied. *)
Context {File : Type}.

(** [keyof FileState] *)
Inductive Category : Type := images | pdf | json | txt.

Definition Category_eqb (a b : Category) : bool :=
  match a, b with
  | images, images | pdf, pdf | json, json | txt, txt => true
  | _, _ => false
  end.

(** The key as a string: the value of [`${fileType}`]. *)
Definition key_name (c : Category) : string :=
  match c with
  | images => "images"
  | pdf => "pdf"
  | json => "json"
  | txt => "txt"
  end.

(** A [FileState] object at run time: its own keys, in enumeration
    (insertion) order, each with its array of files. *)
Definition FileState : Type := list (Category * list File).

(** [{ images: [], pdf: [], json: [], txt: [] }] *)
Definition empty_files : FileState :=
  [(images, []); (pdf, []); (json, []); (txt, [])].

Definition Object_keys (o : FileState) : list Category := map fst o.
Definition Object_values (o : FileState) : list (list File) := map snd o.

(** [o[key]]; [None] is [undefined]. *)
Fixpoint obj_get (o : FileState) (key : Category) : option (list File) :=
  match o with
  | [] => None
  | (k, v) :: rest => if Category_eqb k key then Some v else obj_get rest key
  end.

(** [{ ...o, [key]: value }]: the copy keeps the order of [o]; an existing
    key is overwritten in place, a new key goes last. *)
Fixpoint obj_set (o : FileState) (key : Category) (value : list File)
  : FileState :=
  match o with
  | [] => [(key, value)]
  | (k, v) :: rest =>
      if Category_eqb k key then (k, value) :: rest
      else (k, v) :: obj_set rest key value
  end.

(** [Array.prototype.filter] with the two-argument callback
    [(element, index)]. *)
Fixpoint filter_from {A : Type} (p : A -> Z -> bool) (k : Z) (l : list A)
  : list A :=
  match l with
  | [] => []
  | x :: rest =>
      if p x k then x :: filter_from p (k + 1) rest
      else filter_from p (k + 1) rest
  end.

Definition Array_filter {A : Type} (p : A -> Z -> bool) (l : list A)
  : list A :=
  filter_from p 0 l.

(** A [FormData]: its entries in the order they were appended. *)
Definition FormData : Type := list (string * File).

Definition FormData_append (fd : FormData) (name : string) (value : File)
  : FormData :=
  (fd ++ [(name, value)])%list.

Record Request : Type := mkRequest {
  url : string;
  method : string;
  body : FormData
}.

(** What the component can observe of a [Response]: its status and the
    outcome of [response.json()], which throws when the body is not JSON
    and otherwise yields the parsed value (never [undefined]). *)
Record Response : Type := mkResponse {
  status : Z;
  json_body : Result JsValue
}.

(** [response.ok] *)
Definition ok (r : Response) : bool :=
  (200 <=? status r) && (status r <=? 299).

(** The promise returned by [fetch] either rejects (no response was
    obtained) or resolves to a response. *)
Inductive FetchOutcome : Type :=
| Rejected (e : JsError)
| Responded (r : Response).

(** The upload endpoint as seen from the client. *)
Definition Server : Type := Request -> FetchOutcome.

(** ** Component state and effects *)

Inductive Event : Type :=
| EFetch (req : Request)
| EAlert (msg : string)
| EConsoleError (e : JsError).

(** The two [useState] cells and the log of effects performed so far. *)
Record World : Type := mkWorld {
  files : FileState;
  error : JsValue;
  trace : list Event
}.

(** The component right after mount. *)
Definition mount : World := mkWorld empty_files (JStr empty_string) [].

Definition M (A : Type) : Type := World -> Result A * World.

Definition ret {A : Type} (a : A) : M A := fun w => (Ok a, w).

Definition bind {A B : Type} (m : M A) (k : A -> M B) : M B :=
  fun w =>
    match m w with
    | (Ok a, w') => k a w'
    | (Throw e, w') => (Throw e, w')
    end.

Definition lift {A : Type} (r : Result A) : M A := fun w => (r, w).

(** [try { m } catch (err) { handler(err) }] *)
Definition try_catch {A : Type} (m : M A) (handler : JsError -> M A) : M A :=
  fun w =>
    match m w with
    | (Ok a, w') => (Ok a, w')
    | (Throw e, w') => handler e w'
    end.

Definition emit (ev : Event) : M unit :=
  fun w => (Ok tt, mkWorld (files w) (error w) (trace w ++ [ev])%list).

(** The [files] of the current render. *)
Definition getFiles : M FileState := fun w => (Ok (files w), w).

(** [setFiles((prev) => updater(prev))] *)
Definition setFiles (updater : FileState -> Result FileState) : M unit :=
  fun w =>
    match updater (files w) with
    | Ok next => (Ok tt, mkWorld next (error w) (trace w))
    | Throw e => (Throw e, w)
    end.

Definition setError (v : JsValue) : M unit :=
  fun w => (Ok tt, mkWorld (files w) v (trace w)).

Definition fetch (server : Server) (req : Request) : M Response :=
  fun w =>
    let w' := mkWorld (files w) (error w) (trace w ++ [EFetch req])%list in
    match server req with
    | Rejected e => (Throw e, w')
    | Responded r => (Ok r, w')
    end.

Definition alert (msg : string) : M unit := emit (EAlert msg).
Definition console_error (e : JsError) : M unit := emit (EConsoleError e).

Notation "x <- m ;; k" := (bind m (fun x => k))
  (at level 61, m at next level, right associativity).
Notation "m ;; k" := (bind m (fun _ => k))
  (at level 61, right associativity).

(** ** The handlers *)

(** [FileList | null]: [None] is [null]; a [FileList] object is truthy
    whatever its length. [Array.from] of a [FileList] is its list of
    files. *)
Definition handleFileChange (fileType : Category)
    (selectedFiles : option (list File)) : M unit :=
  match selectedFiles with
  | Some fileList =>
      setFiles (fun prev => Ok (obj_set prev fileType fileList)) ;;
      setError (JStr empty_string)
  | None => ret tt
  end.

Definition removeFile (fileType : Category) (index : Z) : M unit :=
  setFiles (fun prev =>
    match obj_get prev fileType with
    | Some arr =>
        Ok (obj_set prev fileType
              (Array_filter (fun _ i => negb (i =? index)) arr))
    | None => Throw (type_error_reading "undefined" "filter")
    end).

(** [Object.values(files).some((fileArray) => fileArray.length > 0)] *)
Definition hasFiles (fs : FileState) : bool :=
  existsb (fun fileArray => 0 <? Z.of_nat (List.length fileArray))
          (Object_values fs).

(** The two nested [forEach] loops filling the [FormData]. *)
Definition append_all (fs : FileState) : Result FormData :=
  fold_left
    (fun acc fileType =>
       match acc with
       | Throw e => Throw e
       | Ok formData =>
           match obj_get fs fileType with
           | Some arr =>
               Ok (fold_left
                     (fun fd file =>
                        FormData_append fd (key_name fileType) file)
                     arr formData)
           | None => Throw (type_error_reading "undefined" "forEach")
           end
       end)
    (Object_keys fs) (Ok []).

Definition upload_url : string := "http://localhost:5000/upload".
Definition no_files_message : string :=
  "Please select at least one file before submitting.".

Definition handleSubmit (server : Server) : M unit :=
  files <- getFiles ;;
  if negb (hasFiles files) then
    setError (JStr no_files_message)
  else
    formData <- lift (append_all files) ;;
    try_catch
      (response <- fetch server (mkRequest upload_url "POST" formData) ;;
       result <- lift (json_body response) ;;
       if ok response then
         uploaded_files <- lift (get_prop result "uploaded_files") ;;
         alert ("Files uploaded successfully: "
                ++ template_slot (JSON_stringify uploaded_files)) ;;
         setFiles (fun _ => Ok empty_files) ;;
         setError (JStr empty_string)
       else
         reported <- lift (get_prop result "error") ;;
         setError (js_or reported (JStr "Upload failed")))
      (fun err =>
         console_error err ;;
         setError (js_or (message err) (JStr "Upload error occurred"))).

(** ** Running the component *)

(** What the user can do to the form. *)
Inductive UiEvent : Type :=
| Select (fileType : Category) (selectedFiles : option (list File))
| Remove (fileType : Category) (index : Z)
| Submit (server : Server).

Definition handle (ev : UiEvent) : M unit :=
  match ev with
  | Select fileType selectedFiles => handleFileChange fileType selectedFiles
  | Remove fileType index => removeFile fileType index
  | Submit server => handleSubmit server
  end.

(** The state a handler leaves behind, and whether it threw. *)
Definition exec (m : M unit) (w : World) : World := snd (m w).
Definition outcome (m : M unit) (w : World) : Result unit := fst (m w).

(** States the component can be in: the mounted one and whatever the
    handlers make of it. *)
Inductive reachable : World -> Prop :=
| reachable_mount : reachable mount
| reachable_step (w : World) (ev : UiEvent) :
    reachable w -> reachable (exec (handle ev) w).

(** ** Vocabulary of the properties *)

(** Categories in the order of the object literal. *)
Definition all_categories : list Category := [images; pdf; json; txt].

(** Every category key is present, once, in the literal's order. *)
Definition wf_files (fs : FileState) : Prop :=
  Object_keys fs = all_categories.

(** The sequence staged for a category (empty if the key is missing). *)
Definition staged (fs : FileState) (c : Category) : list File :=
  match obj_get fs c with
  | Some arr => arr
  | None => []
  end.

(** The parts of a category: one per file, named after the category. *)
Definition parts_of (fs : FileState) (c : Category) : FormData :=
  map (fun file => (key_name c, file)) (staged fs c).

(** The multipart body built from a file state, and the request that
    carries it. *)
Definition payload (fs : FileState) : FormData :=
  flat_map (parts_of fs) (Object_keys fs).

Definition upload_request (fs : FileState) : Request :=
  mkRequest upload_url "POST" (payload fs).

(** The requests among a list of effects. *)
Fixpoint requests (t : list Event) : list Request :=
  match t with
  | [] => []
  | EFetch req :: rest => req :: requests rest
  | _ :: rest => requests rest
  end.

(** The confirmations among a list of effects. *)
Fixpoint confirmations (t : list Event) : list string :=
  match t with
  | [] => []
  | EAlert msg :: rest => msg :: confirmations rest
  | _ :: rest => confirmations rest
  end.

End UploadForm.

Arguments FileState : clear implicits.
Arguments World : clear implicits.
Arguments Request : clear implicits.
Arguments Server : clear implicits.
Arguments FormData : clear implicits.
Arguments UiEvent : clear implicits.
Arguments Event : clear implicits.

(** ** What is rendered *)

Section UploadFormView.

Context {File : Type}.

(** [file.name], the one property of a [File] the component reads. *)
Variable name : File -> string.

(** What React throws when handed a child it cannot render; its message
    depends on the build of React. *)
Variable invalid_child_error : JsValue -> JsError.

(** The values React accepts as a child: it shows strings and numbers,
    shows nothing for [undefined], [null] and booleans, goes through an
    array's items as children of their own, and throws on any other
    object. *)
Fixpoint renderable (child : JsValue) : bool :=
  match child with
  | JUndefined | JNull | JBool _ | JNum _ | JStr _ => true
  | JArr items => forallb renderable items
  | JObj _ => false
  end.

(** [Array.prototype.map] with the two-argument callback
    [(element, index)]. *)
Fixpoint map_from {A B : Type} (f : A -> Z -> B) (k : Z) (l : list A)
  : list B :=
  match l with
  | [] => []
  | x :: rest => f x k :: map_from f (k + 1) rest
  end.

Definition Array_map {A B : Type} (f : A -> Z -> B) (l : list A) : list B :=
  map_from f 0 l.

(** A [<Chip>]: its React key, its label and what its delete icon
    does. *)
Record Chip : Type := mkChip {
  chip_key : Z;
  chip_label : string;
  chip_onDelete : UiEvent File
}.

(** The hidden [<input type="file">]. *)
Record FileInput : Type := mkFileInput {
  input_accept : string;
  input_multiple : bool;
  input_onChange : option (list File) -> UiEvent File
}.

(** A rendered [FileSelector] card, styling and icon left aside:
    the heading, the input, and the box of chips, which is there only
    when [files[type].length > 0]. *)
Record FileSelectorView : Type := mkFileSelectorView {
  heading : string;
  file_input : FileInput;
  selected : option (list Chip)
}.

(** The props of [FileSelector]; [multiple] may be left out. *)
Record FileSelectorProps : Type := mkProps {
  type : Category;
  accept : string;
  label : string;
  multiple : option bool
}.

Definition FileSelector (props : FileSelectorProps) (fs : FileState File)
  : Result FileSelectorView :=
  let multiple_ :=
    match multiple props with
    | Some b => b
    | None => false
    end in
  match obj_get fs (type props) with
  | None => Throw (type_error_reading "undefined" "length")
  | Some arr =>
      Ok (mkFileSelectorView
            (label props)
            (mkFileInput (accept props) multiple_
               (fun selectedFiles => Select (type props) selectedFiles))
            (if 0 <? Z.of_nat (List.length arr) then
               Some (Array_map
                       (fun file index =>
                          mkChip index (name file)
                                 (Remove (type props) index))
                       arr)
             else None))
  end.

(** [{error && (<Alert severity="error">{error}</Alert>)}]: the alert
    with [error] as its child when [error] is truthy, otherwise the falsy
    value itself as a child. *)
Inductive Banner : Type :=
| ErrorAlert (content : JsValue)
| Bare (v : JsValue).

(** What [App] puts on the page: the banner, the four cards of the grid
    in document order, and the submit button's [onClick]. *)
Record AppView : Type := mkAppView {
  banner : Banner;
  cards : list FileSelectorView;
  submit_onClick : Server File -> UiEvent File
}.

(** Rendering [App]. The banner comes before the grid in the tree, so
    a child of the banner that React cannot render throws first. *)
Definition App (w : World File) : Result AppView :=
  let banner_ :=
    if truthy (error w) then ErrorAlert (error w) else Bare (error w) in
  if negb (renderable (error w)) then Throw (invalid_child_error (error w))
  else
  match FileSelector (mkProps images "image/*" "Images" (Some true))
                     (files w) with
  | Throw e => Throw e
  | Ok card1 =>
  match FileSelector (mkProps pdf ".pdf" "PDF Files" (Some true))
                     (files w) with
  | Throw e => Throw e
  | Ok card2 =>
  match FileSelector (mkProps json ".json" "JSON Files" (Some true))
                     (files w) with
  | Throw e => Throw e
  | Ok card3 =>
  match FileSelector (mkProps txt ".txt" "Text Files" (Some true))
                     (files w) with
  | Throw e => Throw e
  | Ok card4 =>
      Ok (mkAppView banner_ [card1; card2; card3; card4] Submit)
  end end end end.

(** The events the rendered form can raise: a change of one of the
    inputs, the delete icon of a chip shown, the submit button. *)
Definition offers (v : AppView) (ev : UiEvent File) : Prop :=
  (exists card selectedFiles,
      In card (cards v)
      /\ ev = input_onChange (file_input card) selectedFiles)
  \/ (exists card chips chip,
         In card (cards v) /\ selected card = Some chips /\ In chip chips
         /\ ev = chip_onDelete chip)
  \/ (exists server, ev = submit_onClick v server).

End UploadFormView.

Arguments Chip : clear implicits.
Arguments FileInput : clear implicits.
Arguments FileSelectorView : clear implicits.
Arguments AppView : clear implicits.

(** ** Sample data *)

Module Samples.

(** Files are told apart by their names. *)
Definition f1 : string := "f1".
Definition f2 : string := "f2".
Definition f3 : string := "f3".

(** One image staged, as in the scenarios of the specification. *)
Definition one_image : World string :=
  mkWorld [(images, [f1]); (pdf, []); (json, []); (txt, [])]
          (JStr empty_string) [].

(** Three images staged and an error showing. *)
Definition three_images : World string :=
  mkWorld [(images, [f1; f2; f3]); (pdf, []); (json, []); (txt, [])]
          (JStr "Upload failed") [].

(** A mixed selection. *)
Definition mixed : World string :=
  mkWorld [(images, [f1; f2]); (pdf, [f3]); (json, []); (txt, [f1])]
          (JStr empty_string) [].

Definition accepts : Server string :=
  fun _ => Responded
             (mkResponse 200 (Ok (JObj [("uploaded_files", JArr [JStr f1])]))).

Definition rejects : Server string :=
  fun _ => Responded
             (mkResponse 400 (Ok (JObj [("error", JStr "bad file")]))).

Definition syntax_error : JsError :=
  mkError (JStr "Unexpected token < in JSON at position 0").

(** Answers with the given status and a body that is not JSON. *)
Definition garbled (code : Z) : Server string :=
  fun _ => Responded (mkResponse code (Throw syntax_error)).

Definition failed_to_fetch : JsError := mkError (JStr "Failed to fetch").

Definition unreachable : Server string :=
  fun _ => Rejected failed_to_fetch.

End Samples.

(** ** Sample sessions *)

Module Sessions.

Import Samples.

(** Two images are picked, then the upload is refused. *)
Definition after_refusal : World string :=
  exec (handle (Submit rejects))
       (exec (handle (Select images (Some [f1; f2]))) mount).

(** Two images are picked, then the upload is accepted. *)
Definition after_upload : World string :=
  exec (handle (Submit accepts))
       (exec (handle (Select images (Some [f1; f2]))) mount).

(** Answers with a success status and the JSON value [{}]. *)
Definition accepts_silently : Server string :=
  fun _ => Responded (mkResponse 200 (Ok (JObj []))).

(** A file's name, for files told apart by their names. *)
Definition name_of (file : string) : string := file.

Definition images_props : FileSelectorProps :=
  mkProps images "image/*" "Images" (Some true).

(** React's error for an object child, message cut short. *)
Definition react_error (child : JsValue) : JsError :=
  mkError (JStr "Objects are not valid as a React child").



End Sessions.

(** * Properties *)

Local Open Scope list_scope.

Section Facts.

Context {File : Type}.
Implicit Types (fs o : FileState File) (w : World File) (c k : Category).
Implicit Types (arr batch : list File) (server : Server File).

(** ** Objects *)

Lemma Category_eqb_refl c : Category_eqb c c = true.
Proof. destruct c; reflexivity. Qed.

Lemma Category_eqb_neq c k : c <> k -> Category_eqb c k = false.
Proof. destruct c, k; simpl; congruence. Qed.

Lemma Category_eqb_true c k : Category_eqb c k = true -> c = k.
Proof. destruct c, k; simpl; congruence. Qed.

Lemma obj_get_set_same o k arr : obj_get (obj_set o k arr) k = Some arr.
Proof.
  induction o as [|[k' v] rest IH]; simpl.
  - now rewrite Category_eqb_refl.
  - destruct (Category_eqb k' k) eqn:E; simpl; rewrite E; auto.
Qed.

Lemma obj_get_set_other o k c arr :
  c <> k -> obj_get (obj_set o k arr) c = obj_get o c.
Proof.
  intros Hne. induction o as [|[k' v] rest IH]; simpl.
  - rewrite Category_eqb_neq; congruence.
  - destruct (Category_eqb k' k) eqn:E; simpl.
    + apply Category_eqb_true in E. subst k'.
      rewrite Category_eqb_neq; congruence.
    + now rewrite IH.
Qed.

Lemma obj_set_keys o k arr arr' :
  obj_get o k = Some arr' ->
  Object_keys (obj_set o k arr) = Object_keys o.
Proof.
  induction o as [|[k' v] rest IH]; simpl; [discriminate|].
  destruct (Category_eqb k' k); simpl; intros H; [reflexivity|].
  f_equal. now apply IH.
Qed.

Lemma obj_get_key_in o k : In k (Object_keys o) -> obj_get o k <> None.
Proof.
  induction o as [|[k' v] rest IH]; simpl; [tauto|].
  intros [->|Hin].
  - now rewrite Category_eqb_refl.
  - destruct (Category_eqb k' k); [discriminate | auto].
Qed.

Lemma wf_files_inv fs :
  wf_files fs ->
  exists a b x d : list File,
    fs = [(images, a); (pdf, b); (json, x); (txt, d)].
Proof.
  unfold wf_files, Object_keys, all_categories.
  destruct fs as [|[k1 a] [|[k2 b] [|[k3 x] [|[k4 d] [|? ?]]]]];
    simpl; try discriminate.
  intros H. injection H as -> -> -> ->. now exists a, b, x, d.
Qed.

Lemma wf_files_get fs c : wf_files fs -> obj_get fs c = Some (staged fs c).
Proof.
  intros (a & b & x & d & ->)%wf_files_inv. now destruct c.
Qed.

Lemma wf_files_set fs c arr : wf_files fs -> wf_files (obj_set fs c arr).
Proof.
  intros H. unfold wf_files.
  rewrite (obj_set_keys _ _ _ _ (wf_files_get fs c H)). exact H.
Qed.

(** ** Filtering by position *)

Lemma filter_from_past {A} (t k : Z) (l : list A) :
  t < k -> filter_from (fun _ j => negb (j =? t)) k l = l.
Proof.
  revert k. induction l as [|x rest IH]; intros k Hlt; simpl; [reflexivity|].
  destruct (k =? t) eqn:E; [lia|]. simpl. f_equal. apply IH. lia.
Qed.

Lemma filter_from_position {A} (l : list A) :
  forall (k t : Z) (i : nat),
    t = k + Z.of_nat i ->
    filter_from (fun _ j => negb (j =? t)) k l = firstn i l ++ skipn (S i) l.
Proof.
  induction l as [|x rest IH]; intros k t i Ht; simpl.
  - now destruct i.
  - destruct i as [|i]; simpl.
    + replace (k =? t) with true by lia. simpl.
      apply filter_from_past. lia.
    + replace (k =? t) with false by lia. simpl. f_equal.
      apply IH. lia.
Qed.

Lemma Array_filter_position {A} (l : list A) (i : nat) :
  Array_filter (fun _ j => negb (j =? Z.of_nat i)) l
  = firstn i l ++ skipn (S i) l.
Proof. unfold Array_filter. apply filter_from_position. lia. Qed.

Lemma Array_filter_negative {A} (l : list A) (index : Z) :
  index < 0 -> Array_filter (fun _ j => negb (j =? index)) l = l.
Proof. intros H. unfold Array_filter. now apply filter_from_past. Qed.

Lemma remove_out_of_range {A} (l : list A) (i : nat) :
  (List.length l <= i)%nat -> firstn i l ++ skipn (S i) l = l.
Proof.
  intros H. rewrite firstn_all2 by exact H.
  rewrite skipn_all2 by lia. apply app_nil_r.
Qed.

Lemma remove_twice {A} (l : list A) (i : nat) :
  firstn i (firstn i l ++ skipn (S i) l)
  ++ skipn (S i) (firstn i l ++ skipn (S i) l)
  = firstn i l ++ skipn (S (S i)) l.
Proof.
  revert l.
  induction i as [|i IH]; intros [|x rest]; simpl; try reflexivity.
  f_equal. apply IH.
Qed.

(** ** The selection handlers *)

Lemma handleFileChange_some c batch w :
  handleFileChange c (Some batch) w
  = (Ok tt, mkWorld (obj_set (files w) c batch) (JStr empty_string) (trace w)).
Proof. reflexivity. Qed.

Lemma handleFileChange_none c w : handleFileChange c None w = (Ok tt, w).
Proof. reflexivity. Qed.

Lemma removeFile_present c (index : Z) arr w :
  obj_get (files w) c = Some arr ->
  removeFile c index w
  = (Ok tt,
     mkWorld (obj_set (files w) c
                (Array_filter (fun _ j => negb (j =? index)) arr))
             (error w) (trace w)).
Proof. intros H. unfold removeFile, setFiles. now rewrite H. Qed.

(** ** Building the payload *)

Lemma append_files_spec (name : string) arr (fd : FormData File) :
  fold_left (fun fd file => FormData_append fd name file) arr fd
  = fd ++ map (fun file => (name, file)) arr.
Proof.
  revert fd. induction arr as [|file rest IH]; intros fd; simpl.
  - now rewrite app_nil_r.
  - rewrite IH. unfold FormData_append. now rewrite <- app_assoc.
Qed.

Lemma append_keys_spec fs (ks : list Category) :
  forall acc : FormData File,
    (forall k, In k ks -> obj_get fs k <> None) ->
    fold_left
      (fun acc fileType =>
         match acc with
         | Throw e => Throw e
         | Ok formData =>
             match obj_get fs fileType with
             | Some arr =>
                 Ok (fold_left
                       (fun fd file =>
                          FormData_append fd (key_name fileType) file)
                       arr formData)
             | None => Throw (type_error_reading "undefined" "forEach")
             end
         end)
      ks (Ok acc)
    = Ok (acc ++ flat_map (parts_of fs) ks).
Proof.
  induction ks as [|k rest IH]; intros acc Hin; simpl.
  - now rewrite app_nil_r.
  - destruct (obj_get fs k) as [arr|] eqn:E.
    + rewrite append_files_spec, IH by (intros; apply Hin; now right).
      unfold parts_of at 2, staged. rewrite E. now rewrite app_assoc.
    + exfalso. apply (Hin k); [now left | exact E].
Qed.

Lemma append_all_spec fs : append_all fs = Ok (payload fs).
Proof.
  unfold append_all, payload.
  rewrite append_keys_spec; [reflexivity|].
  intros k. apply obj_get_key_in.
Qed.

Lemma payload_wf fs :
  wf_files fs ->
  payload fs
  = map (fun file => ("images", file)) (staged fs images)
    ++ map (fun file => ("pdf", file)) (staged fs pdf)
    ++ map (fun file => ("json", file)) (staged fs json)
    ++ map (fun file => ("txt", file)) (staged fs txt).
Proof.
  intros H. unfold payload. rewrite H. simpl. now rewrite app_nil_r.
Qed.

Lemma hasFiles_true fs :
  wf_files fs -> (exists c, staged fs c <> []) -> hasFiles fs = true.
Proof.
  intros (a & b & x & d & ->)%wf_files_inv [c Hc].
  destruct c; unfold staged in Hc; simpl in Hc;
    [destruct a | destruct b | destruct x | destruct d];
    try congruence; unfold hasFiles; simpl;
    repeat (reflexivity || rewrite orb_true_r).
Qed.

Lemma hasFiles_false fs :
  wf_files fs -> (forall c, staged fs c = []) -> hasFiles fs = false.
Proof.
  intros (a & b & x & d & ->)%wf_files_inv Hall.
  pose proof (Hall images) as Ha. pose proof (Hall pdf) as Hb.
  pose proof (Hall json) as Hx. pose proof (Hall txt) as Hd.
  unfold staged in *. simpl in *. now subst.
Qed.

(** ** The four ways a submission can go *)

Ltac start_submit Hhas :=
  unfold handleSubmit, bind, getFiles; rewrite Hhas; simpl;
  unfold lift; rewrite append_all_spec;
  unfold try_catch, bind, fetch; fold (upload_request (File := File)).

Lemma handleSubmit_nothing server w :
  hasFiles (files w) = false ->
  handleSubmit server w
  = (Ok tt, mkWorld (files w) (JStr no_files_message) (trace w)).
Proof.
  intros Hhas. unfold handleSubmit, bind, getFiles. now rewrite Hhas.
Qed.

Lemma handleSubmit_rejected server w (e : JsError) :
  hasFiles (files w) = true ->
  server (upload_request (files w)) = Rejected e ->
  handleSubmit server w
  = (Ok tt,
     mkWorld (files w)
             (js_or (message e) (JStr "Upload error occurred"))
             (trace w ++ [EFetch (upload_request (files w));
                          EConsoleError e])).
Proof.
  intros Hhas Hsrv. start_submit Hhas.
  unfold upload_request in *. rewrite Hsrv. simpl.
  now rewrite <- app_assoc.
Qed.

Lemma handleSubmit_unparsable server w (r : Response) (e : JsError) :
  hasFiles (files w) = true ->
  server (upload_request (files w)) = Responded r ->
  json_body r = Throw e ->
  handleSubmit server w
  = (Ok tt,
     mkWorld (files w)
             (js_or (message e) (JStr "Upload error occurred"))
             (trace w ++ [EFetch (upload_request (files w));
                          EConsoleError e])).
Proof.
  intros Hhas Hsrv Hbody. start_submit Hhas.
  unfold upload_request in *. rewrite Hsrv. simpl. rewrite Hbody. simpl.
  now rewrite <- app_assoc.
Qed.

Lemma handleSubmit_accepted server w (r : Response) (result listed : JsValue) :
  hasFiles (files w) = true ->
  server (upload_request (files w)) = Responded r ->
  json_body r = Ok result ->
  ok r = true ->
  get_prop result "uploaded_files" = Ok listed ->
  handleSubmit server w
  = (Ok tt,
     mkWorld empty_files (JStr empty_string)
             (trace w ++ [EFetch (upload_request (files w));
                          EAlert ("Files uploaded successfully: "
                                  ++ template_slot (JSON_stringify listed))%string])).
Proof.
  intros Hhas Hsrv Hbody Hok Hprop. start_submit Hhas.
  unfold upload_request in *. rewrite Hsrv. simpl. rewrite Hbody. simpl.
  rewrite Hok, Hprop. simpl. now rewrite <- app_assoc.
Qed.

Lemma handleSubmit_refused server w (r : Response) (result reported : JsValue) :
  hasFiles (files w) = true ->
  server (upload_request (files w)) = Responded r ->
  json_body r = Ok result ->
  ok r = false ->
  get_prop result "error" = Ok reported ->
  handleSubmit server w
  = (Ok tt,
     mkWorld (files w) (js_or reported (JStr "Upload failed"))
             (trace w ++ [EFetch (upload_request (files w))])).
Proof.
  intros Hhas Hsrv Hbody Hok Hprop. start_submit Hhas.
  unfold upload_request in *. rewrite Hsrv. simpl. rewrite Hbody. simpl.
  now rewrite Hok, Hprop.
Qed.

(** Reading a property throws only on [undefined] and [null]. *)
Lemma get_prop_defined (v : JsValue) (prop : string) :
  v <> JNull -> v <> JUndefined -> exists x, get_prop v prop = Ok x.
Proof. destruct v; simpl; intros; eauto; congruence. Qed.

(** ** What stays true of the file state *)

Lemma handleSubmit_files server w :
  files (exec (handleSubmit server) w) = files w
  \/ files (exec (handleSubmit server) w) = empty_files.
Proof.
  unfold exec. destruct (hasFiles (files w)) eqn:Hhas.
  - destruct (server (upload_request (files w))) as [e|r] eqn:Hsrv.
    + rewrite (handleSubmit_rejected _ _ _ Hhas Hsrv). now left.
    + destruct (json_body r) as [result|e] eqn:Hbody.
      * start_submit Hhas. unfold upload_request in *.
        rewrite Hsrv. simpl. rewrite Hbody. simpl.
        destruct (ok r); destruct (get_prop result _); simpl; auto.
      * rewrite (handleSubmit_unparsable _ _ _ _ Hhas Hsrv Hbody). now left.
  - rewrite (handleSubmit_nothing _ _ Hhas). now left.
Qed.

Lemma handle_wf (ev : UiEvent File) w :
  wf_files (files w) -> wf_files (files (exec (handle ev) w)).
Proof.
  intros Hwf. destruct ev as [c [batch|]|c index|server]; cbn [handle].
  - unfold exec. rewrite handleFileChange_some. simpl.
    now apply wf_files_set.
  - exact Hwf.
  - unfold exec.
    rewrite (removeFile_present _ _ _ _ (wf_files_get _ c Hwf)). simpl.
    now apply wf_files_set.
  - destruct (handleSubmit_files server w) as [-> | ->];
      [exact Hwf | reflexivity].
Qed.

Lemma reachable_wf w : reachable w -> wf_files (files w).
Proof.
  induction 1 as [|w ev _ IH]; [reflexivity | now apply handle_wf].
Qed.

Lemma handleSubmit_one_request server w :
  hasFiles (files w) = true ->
  exists fs' v rest,
    handleSubmit server w
    = (Ok tt,
       mkWorld fs' v (trace w ++ EFetch (upload_request (files w)) :: rest))
    /\ requests rest = [].
Proof.
  intros Hhas.
  destruct (server (upload_request (files w))) as [e|r] eqn:Hsrv.
  - rewrite (handleSubmit_rejected _ _ _ Hhas Hsrv). eauto.
  - destruct (json_body r) as [result|e] eqn:Hbody.
    + start_submit Hhas. unfold upload_request in *.
      rewrite Hsrv. simpl. rewrite Hbody. simpl.
      destruct (ok r); destruct (get_prop result _); simpl;
        rewrite <- ?app_assoc; simpl; unfold setError; simpl;
        do 3 eexists; split; reflexivity.
    + rewrite (handleSubmit_unparsable _ _ _ _ Hhas Hsrv Hbody). eauto.
Qed.

Lemma obj_set_same o k arr : obj_get o k = Some arr -> obj_set o k arr = o.
Proof.
  induction o as [|[k' v] rest IH]; simpl; [discriminate|].
  destruct (Category_eqb k' k); intros H.
  - now injection H as ->.
  - f_equal. now apply IH.
Qed.

Lemma split_at_position {A} (l : list A) (i : nat) :
  (i < List.length l)%nat ->
  exists x, nth_error l i = Some x /\ l = firstn i l ++ x :: skipn (S i) l.
Proof.
  revert i. induction l as [|y rest IH]; intros i Hi; simpl in Hi; [lia|].
  destruct i as [|i]; simpl.
  - now exists y.
  - destruct (IH i) as (x & Hx & Hsplit); [lia|].
    exists x. split; [exact Hx | now f_equal].
Qed.

Lemma removed_length {A} (l : list A) (i : nat) :
  (i < List.length l)%nat ->
  List.length (firstn i l ++ skipn (S i) l) = (List.length l - 1)%nat.
Proof.
  intros Hi. rewrite length_app, length_firstn, length_skipn. lia.
Qed.

Lemma world_eta w : mkWorld (files w) (error w) (trace w) = w.
Proof. now destruct w. Qed.

End Facts.

(** * The claims *)

Section Claims.

Context {File : Type}.
Implicit Types (w : World File) (c k : Category).
Implicit Types (arr batch : list File) (server : Server File).

(** C1. When at least one category holds a file, [handleSubmit] performs
    exactly one [fetch]: a POST to http://localhost:5000/upload whose body
    lists the files of images, then pdf, then json, then txt, every file
    under a field named exactly after its category. *)
Theorem handleSubmit_posts_once server w :
  wf_files (files w) ->
  (exists c, staged (files w) c <> []) ->
  let fs := files w in
  let parts :=
    map (fun file => ("images", file)) (staged fs images)
    ++ map (fun file => ("pdf", file)) (staged fs pdf)
    ++ map (fun file => ("json", file)) (staged fs json)
    ++ map (fun file => ("txt", file)) (staged fs txt) in
  outcome (handleSubmit server) w = Ok tt /\
  exists rest,
    trace (exec (handleSubmit server) w)
    = trace w
      ++ EFetch (mkRequest "http://localhost:5000/upload" "POST" parts)
      :: rest
    /\ requests rest = [].
Proof.
  intros Hwf Hany fs parts.
  destruct (handleSubmit_one_request server w (hasFiles_true _ Hwf Hany))
    as (fs' & v & rest & Hrun & Hrest).
  unfold outcome, exec. rewrite Hrun. simpl. split; [reflexivity|].
  exists rest. split; [|exact Hrest].
  unfold upload_request. now rewrite (payload_wf _ Hwf).
Qed.

(** C2. When all four categories are empty, [handleSubmit] sets the error
    to the fixed no-files message and returns: nothing is added to the
    effects (no request) and the file state is the one before. *)
Theorem handleSubmit_no_files server w :
  wf_files (files w) ->
  (forall c, staged (files w) c = []) ->
  handleSubmit server w
  = (Ok tt,
     mkWorld (files w)
             (JStr "Please select at least one file before submitting.")
             (trace w)).
Proof.
  intros Hwf Hall. apply handleSubmit_nothing. now apply hasFiles_false.
Qed.

(** C3, amended. A submission answered with a success status whose body
    parses as JSON to a value other than [null] (parsed JSON is never
    [undefined]) shows one [alert] naming
    [JSON.stringify(result.uploaded_files, null, 2)], resets all four
    categories to empty and clears the error. *)
Theorem handleSubmit_success server w (r : Response) (result : JsValue) :
  hasFiles (files w) = true ->
  server (upload_request (files w)) = Responded r ->
  ok r = true ->
  json_body r = Ok result ->
  result <> JNull ->
  result <> JUndefined ->
  exists listed,
    get_prop result "uploaded_files" = Ok listed /\
    handleSubmit server w
    = (Ok tt,
       mkWorld [(images, []); (pdf, []); (json, []); (txt, [])]
               (JStr empty_string)
               (trace w
                ++ [EFetch (upload_request (files w));
                    EAlert ("Files uploaded successfully: "
                            ++ template_slot (JSON_stringify listed))%string])).
Proof.
  intros Hhas Hsrv Hok Hbody Hnull Hundef.
  destruct (get_prop_defined result "uploaded_files" Hnull Hundef)
    as [listed Hlisted].
  exists listed. split; [exact Hlisted|].
  now apply (handleSubmit_accepted server w r result).
Qed.

(** C4, amended. A submission answered with a failure status whose body
    parses as JSON to a value other than [null] sets the error to the
    body's [error] member when that member is truthy, and to
    ["Upload failed"] when it is missing or falsy; the file state and the
    confirmations are those before the call. *)
Theorem handleSubmit_failure server w (r : Response) (result : JsValue) :
  hasFiles (files w) = true ->
  server (upload_request (files w)) = Responded r ->
  ok r = false ->
  json_body r = Ok result ->
  result <> JNull ->
  result <> JUndefined ->
  exists reported,
    get_prop result "error" = Ok reported /\
    handleSubmit server w
    = (Ok tt,
       mkWorld (files w)
               (if truthy reported then reported else JStr "Upload failed")
               (trace w ++ [EFetch (upload_request (files w))])).
Proof.
  intros Hhas Hsrv Hok Hbody Hnull Hundef.
  destruct (get_prop_defined result "error" Hnull Hundef)
    as [reported Hreported].
  exists reported. split; [exact Hreported|].
  now apply (handleSubmit_refused server w r result).
Qed.

(** C5. A submission whose [fetch] rejects sets the error to the
    rejection's message when there is one (a truthy [err.message]) and to
    ["Upload error occurred"] otherwise, logs the rejection, and leaves
    the file state as it was. *)
Theorem handleSubmit_transport_failure server w (e : JsError) :
  hasFiles (files w) = true ->
  server (upload_request (files w)) = Rejected e ->
  handleSubmit server w
  = (Ok tt,
     mkWorld (files w)
             (if truthy (message e) then message e
              else JStr "Upload error occurred")
             (trace w ++ [EFetch (upload_request (files w));
                          EConsoleError e])).
Proof. intros Hhas Hsrv. now apply handleSubmit_rejected. Qed.

(** C10. When [response.json()] throws, the status is never looked at:
    whatever it is, the error becomes the parse failure's message (or
    ["Upload error occurred"]), no [alert] is raised and the file state is
    the one before the call. *)
Theorem handleSubmit_body_not_json server w (r : Response) (e : JsError) :
  hasFiles (files w) = true ->
  server (upload_request (files w)) = Responded r ->
  json_body r = Throw e ->
  let w' := exec (handleSubmit server) w in
  outcome (handleSubmit server) w = Ok tt /\
  error w' = (if truthy (message e) then message e
              else JStr "Upload error occurred") /\
  trace w' = trace w ++ [EFetch (upload_request (files w)); EConsoleError e] /\
  confirmations (trace w') = confirmations (trace w) /\
  files w' = files w.
Proof.
  intros Hhas Hsrv Hbody w'. subst w'. unfold outcome, exec.
  rewrite (handleSubmit_unparsable _ _ _ _ Hhas Hsrv Hbody). simpl.
  repeat split.
  induction (trace w) as [|[req|msg|e'] t IH]; simpl; congruence.
Qed.

(** C6. Selecting a non-empty batch for a category makes the batch that
    category's whole sequence (the earlier sequence is dropped, not
    extended), leaves the other categories alone and clears the error;
    selecting again leaves only the later batch. *)
Theorem handleFileChange_replaces c batch w :
  batch <> [] ->
  let w' := exec (handleFileChange c (Some batch)) w in
  outcome (handleFileChange c (Some batch)) w = Ok tt /\
  obj_get (files w') c = Some batch /\
  (forall k, k <> c -> obj_get (files w') k = obj_get (files w) k) /\
  error w' = JStr empty_string /\
  forall batch',
    batch' <> [] ->
    obj_get (files (exec (handleFileChange c (Some batch')) w')) c
    = Some batch'.
Proof.
  intros _ w'. subst w'. unfold outcome, exec.
  rewrite handleFileChange_some. simpl.
  split; [reflexivity|]. split; [apply obj_get_set_same|].
  split; [intros k Hk; now apply obj_get_set_other|].
  split; [reflexivity|].
  intros batch' _. apply obj_get_set_same.
Qed.

(** C7, amended. With no selection ([null]) [handleFileChange] changes
    nothing. With an empty selection it does what it does for any other:
    the category's sequence becomes empty and the error is cleared. *)
Theorem handleFileChange_absent_or_empty c w :
  handleFileChange c None w = (Ok tt, w) /\
  handleFileChange c (Some []) w
  = (Ok tt, mkWorld (obj_set (files w) c []) (JStr empty_string) (trace w)) /\
  obj_get (files (exec (handleFileChange c (Some [])) w)) c = Some [].
Proof.
  split; [reflexivity|]. split; [reflexivity|].
  unfold exec. rewrite handleFileChange_some. apply obj_get_set_same.
Qed.

(** C8. On a category whose sequence [arr] has length [n], [removeFile]
    with a position [i < n] removes the element at [i] and keeps the other
    [n - 1] in their order; with [i >= n] it changes nothing. It never
    throws, and never touches another category or the error. *)
Theorem removeFile_position c w arr (i : nat) :
  obj_get (files w) c = Some arr ->
  let n := List.length arr in
  let w' := exec (removeFile c (Z.of_nat i)) w in
  outcome (removeFile c (Z.of_nat i)) w = Ok tt /\
  ((i < n)%nat ->
   exists x,
     nth_error arr i = Some x /\
     arr = firstn i arr ++ x :: skipn (S i) arr /\
     obj_get (files w') c = Some (firstn i arr ++ skipn (S i) arr) /\
     List.length (staged (files w') c) = (n - 1)%nat) /\
  ((n <= i)%nat -> w' = w) /\
  (forall k, k <> c -> obj_get (files w') k = obj_get (files w) k) /\
  error w' = error w.
Proof.
  intros Hget n w'. subst n w'. unfold outcome, exec.
  rewrite (removeFile_present _ _ _ _ Hget). simpl.
  rewrite Array_filter_position.
  split; [reflexivity|]. split; [|split; [|split]].
  - intros Hi. destruct (split_at_position arr i Hi) as (x & Hx & Hsplit).
    exists x. split; [exact Hx|]. split; [exact Hsplit|].
    unfold staged. rewrite obj_get_set_same.
    split; [reflexivity | now apply removed_length].
  - intros Hi. rewrite remove_out_of_range by exact Hi.
    rewrite (obj_set_same _ _ _ Hget). apply world_eta.
  - intros k Hk. now apply obj_get_set_other.
  - reflexivity.
Qed.

(** C9, amended. [removeFile] goes by position at the time of the call:
    a second call with the same index removes whatever has moved into
    that position, so the two calls together take out the elements first
    at [i] and [i + 1]. The second call changes nothing only when no
    element followed the one removed first. *)
Theorem removeFile_twice c w arr (i : nat) :
  obj_get (files w) c = Some arr ->
  let w1 := exec (removeFile c (Z.of_nat i)) w in
  let w2 := exec (removeFile c (Z.of_nat i)) w1 in
  obj_get (files w2) c = Some (firstn i arr ++ skipn (S (S i)) arr) /\
  ((S i < List.length arr)%nat ->
   List.length (staged (files w2) c) = (List.length arr - 2)%nat) /\
  ((List.length arr <= S i)%nat -> w2 = w1).
Proof.
  intros Hget w1 w2.
  assert (Hw1 : w1 = mkWorld
                  (obj_set (files w) c (firstn i arr ++ skipn (S i) arr))
                  (error w) (trace w)).
  { subst w1. unfold exec. rewrite (removeFile_present _ _ _ _ Hget).
    simpl. now rewrite Array_filter_position. }
  assert (Hget1 : obj_get (files w1) c
                  = Some (firstn i arr ++ skipn (S i) arr)).
  { rewrite Hw1. simpl. apply obj_get_set_same. }
  assert (Hw2 : w2 = mkWorld
                  (obj_set (files w1) c (firstn i arr ++ skipn (S (S i)) arr))
                  (error w1) (trace w1)).
  { subst w2. unfold exec. rewrite (removeFile_present _ _ _ _ Hget1).
    rewrite Array_filter_position, (remove_twice arr i). reflexivity. }
  split; [|split].
  - rewrite Hw2. cbn [files]. apply obj_get_set_same.
  - intros Hi. unfold staged. rewrite Hw2. cbn [files].
    rewrite obj_get_set_same.
    rewrite length_app, length_firstn, length_skipn. lia.
  - intros Hi. rewrite Hw2.
    replace (firstn i arr ++ skipn (S (S i)) arr)
      with (firstn i arr ++ skipn (S i) arr).
    + rewrite (obj_set_same _ _ _ Hget1). apply world_eta.
    + f_equal. destruct (Nat.eq_dec (List.length arr) (S i)) as [E|E].
      * rewrite (skipn_all2 (n := S (S i))) by lia.
        rewrite <- E. apply skipn_all.
      * now rewrite !skipn_all2 by lia.
Qed.

End Claims.

(** * The claims on sample runs *)

Import Samples.

Lemma handleSubmit_posts_once_witness :
  wf_files (files mixed) /\
  staged (files mixed) pdf <> [] /\
  outcome (handleSubmit accepts) mixed = Ok tt /\
  exists rest,
    trace (exec (handleSubmit accepts) mixed)
    = [] ++ EFetch (mkRequest "http://localhost:5000/upload" "POST"
                      [("images", f1); ("images", f2); ("pdf", f3);
                       ("txt", f1)])
         :: rest
    /\ requests rest = [].
Proof.
  split; [reflexivity|]. split; [discriminate|].
  apply (handleSubmit_posts_once accepts mixed);
    [reflexivity | exists pdf; discriminate].
Defined.

Lemma handleSubmit_no_files_witness :
  wf_files (files (mount (File := string))) /\
  handleSubmit accepts mount
  = (Ok tt,
     mkWorld empty_files
             (JStr "Please select at least one file before submitting.") []).
Proof.
  split; [reflexivity|].
  apply (handleSubmit_no_files accepts mount);
    [reflexivity | intros c; now destruct c].
Defined.

Lemma handleSubmit_success_witness :
  ok (mkResponse 200 (Ok (JObj [("uploaded_files", JArr [JStr f1])]))) = true /\
  exists listed,
    get_prop (JObj [("uploaded_files", JArr [JStr f1])]) "uploaded_files"
    = Ok listed /\
    handleSubmit accepts one_image
    = (Ok tt,
       mkWorld [(images, []); (pdf, []); (json, []); (txt, [])]
               (JStr empty_string)
               ([] ++ [EFetch (upload_request (files one_image));
                       EAlert ("Files uploaded successfully: "
                               ++ template_slot (JSON_stringify listed))%string])).
Proof.
  split; [reflexivity|].
  apply (handleSubmit_success accepts one_image
           (mkResponse 200 (Ok (JObj [("uploaded_files", JArr [JStr f1])])))
           (JObj [("uploaded_files", JArr [JStr f1])]));
    first [reflexivity | discriminate].
Defined.

Lemma handleSubmit_failure_witness :
  ok (mkResponse 400 (Ok (JObj [("error", JStr "bad file")]))) = false /\
  exists reported,
    get_prop (JObj [("error", JStr "bad file")]) "error" = Ok reported /\
    handleSubmit rejects one_image
    = (Ok tt,
       mkWorld [(images, [f1]); (pdf, []); (json, []); (txt, [])]
               (if truthy reported then reported else JStr "Upload failed")
               ([] ++ [EFetch (upload_request (files one_image))])).
Proof.
  split; [reflexivity|].
  apply (handleSubmit_failure rejects one_image
           (mkResponse 400 (Ok (JObj [("error", JStr "bad file")])))
           (JObj [("error", JStr "bad file")]));
    first [reflexivity | discriminate].
Defined.

Lemma handleSubmit_transport_failure_witness :
  hasFiles (files one_image) = true /\
  handleSubmit unreachable one_image
  = (Ok tt,
     mkWorld [(images, [f1]); (pdf, []); (json, []); (txt, [])]
             (JStr "Failed to fetch")
             [EFetch (upload_request (files one_image));
              EConsoleError failed_to_fetch]).
Proof.
  split; [reflexivity|].
  apply (handleSubmit_transport_failure unreachable one_image failed_to_fetch);
    reflexivity.
Defined.

Lemma handleSubmit_body_not_json_witness :
  ok (mkResponse 200 (Throw syntax_error)) = true /\
  outcome (handleSubmit (garbled 200)) one_image = Ok tt /\
  error (exec (handleSubmit (garbled 200)) one_image)
  = JStr "Unexpected token < in JSON at position 0" /\
  trace (exec (handleSubmit (garbled 200)) one_image)
  = [EFetch (upload_request (files one_image)); EConsoleError syntax_error] /\
  confirmations (trace (exec (handleSubmit (garbled 200)) one_image)) = [] /\
  files (exec (handleSubmit (garbled 200)) one_image)
  = [(images, [f1]); (pdf, []); (json, []); (txt, [])].
Proof.
  split; [reflexivity|].
  apply (handleSubmit_body_not_json (garbled 200) one_image
           (mkResponse 200 (Throw syntax_error)) syntax_error);
    reflexivity.
Defined.

Lemma handleFileChange_replaces_witness :
  let w' := exec (handleFileChange images (Some [f1; f2])) mount in
  obj_get (files w') images = Some [f1; f2] /\
  error w' = JStr empty_string /\
  obj_get (files (exec (handleFileChange images (Some [f3])) w')) images
  = Some [f3].
Proof.
  destruct (handleFileChange_replaces images [f1; f2] mount)
    as (_ & Hget & _ & Herr & Hagain); [discriminate|].
  split; [exact Hget|]. split; [exact Herr|].
  apply Hagain. discriminate.
Defined.

Lemma removeFile_position_witness :
  let w' := exec (removeFile images 1) three_images in
  outcome (removeFile images 1) three_images = Ok tt /\
  obj_get (files w') images = Some [f1; f3] /\
  exec (removeFile images 3) three_images = three_images.
Proof.
  destruct (removeFile_position images three_images [f1; f2; f3] 1
              eq_refl) as (Hok & Hin & _).
  destruct (removeFile_position images three_images [f1; f2; f3] 3
              eq_refl) as (_ & _ & Hout & _).
  split; [exact Hok|]. split.
  - destruct Hin as (x & _ & _ & Hget & _); [simpl; lia | exact Hget].
  - apply Hout. simpl. lia.
Defined.

Lemma removeFile_twice_witness :
  let w1 := exec (removeFile images 0) three_images in
  let w2 := exec (removeFile images 0) w1 in
  obj_get (files w2) images = Some [f3] /\
  List.length (staged (files w2) images) = 1%nat.
Proof.
  destruct (removeFile_twice images three_images [f1; f2; f3] 0 eq_refl)
    as (Hget & Hlen & _).
  split; [exact Hget | apply Hlen; simpl; lia].
Defined.

(** The scenario of the accepted upload, with the text of the
    confirmation written out. *)
Example accepted_upload_run :
  handleSubmit accepts one_image
  = (Ok tt,
     mkWorld empty_files (JStr empty_string)
       [EFetch (mkRequest "http://localhost:5000/upload" "POST"
                  [("images", f1)]);
        EAlert ("Files uploaded successfully: [" ++ LF
                ++ "  " ++ DQUOTE ++ "f1" ++ DQUOTE ++ LF ++ "]")%string]).
Proof. reflexivity. Qed.

(** The scenario of the rejected upload. *)
Example rejected_upload_run :
  handleSubmit rejects one_image
  = (Ok tt,
     mkWorld (files one_image) (JStr "bad file")
       [EFetch (mkRequest "http://localhost:5000/upload" "POST"
                  [("images", f1)])]).
Proof. reflexivity. Qed.

(** Numbers in the confirmation are written as [JSON.stringify] writes
    them: plain digits up to 21 places, exponent form beyond, fractions,
    [null] for an infinity. *)
Example numbers_in_json :
  map number_to_json
      [NumFinite false 1 21; NumFinite false 1 20; NumFinite false 15 (-1);
       NumFinite true 1 (-7); NumFinite false 1 (-6);
       NumFinite false 12345678901234568 5; NumFinite false 1200 0;
       NumZero true; NumInfinite false]
  = ["1e+21"; "100000000000000000000"; "1.5"; "-1e-7"; "0.000001";
     "1.2345678901234568e+21"; "1200"; "0"; "null"]%string.
Proof. reflexivity. Qed.

(** An accepted upload whose listing holds a size of 1.5. *)
Example fractional_size_run :
  confirmations
    (trace (exec (handleSubmit
                    (fun _ => Responded
                       (mkResponse 200
                          (Ok (JObj [("uploaded_files",
                                      JArr [JNum (NumFinite false 15 (-1))])])))))
                 one_image))
  = [("Files uploaded successfully: [" ++ LF ++ "  1.5" ++ LF ++ "]")%string].
Proof. reflexivity. Qed.

(** A failure answer whose body is JSON [null]: reading [result.error]
    throws, and the catch branch reports that. *)
Example null_body_run :
  error (exec (handleSubmit (fun _ => Responded (mkResponse 400 (Ok JNull))))
              one_image)
  = JStr "Cannot read properties of null (reading 'error')".
Proof. reflexivity. Qed.

(** * Where the specification and the code part ways *)

(** C3 as stated fails: a 200 answer whose body is not JSON raises no
    [alert], keeps the staged file and sets an error. *)
Lemma garbled_body_under_success_status :
  let r := mkResponse 200 (Throw syntax_error) in
  let w' := exec (handleSubmit (garbled 200)) one_image in
  garbled 200 (upload_request (files one_image)) = Responded r /\
  ok r = true /\
  confirmations (trace w') = [] /\
  obj_get (files w') images = Some [f1] /\
  files w' <> empty_files /\
  error w' <> JStr empty_string.
Proof. repeat split; discriminate. Qed.

(** C4 as stated fails: a 400 answer whose body is not JSON has no
    [error] member, yet the error set is not ["Upload failed"] but the
    parse failure's message. *)
Lemma garbled_body_under_failure_status :
  let r := mkResponse 400 (Throw syntax_error) in
  let w' := exec (handleSubmit (garbled 400)) one_image in
  garbled 400 (upload_request (files one_image)) = Responded r /\
  ok r = false /\
  error w' = JStr "Unexpected token < in JSON at position 0" /\
  error w' <> JStr "Upload failed".
Proof. repeat split; discriminate. Qed.

(** C7 as stated fails: an empty selection is not a no-op; it empties the
    category and clears the error. *)
Lemma handleFileChange_empty_selection_clears :
  let w' := exec (handleFileChange images (Some [])) three_images in
  obj_get (files three_images) images = Some [f1; f2; f3] /\
  obj_get (files w') images = Some [] /\
  error three_images = JStr "Upload failed" /\
  error w' = JStr empty_string /\
  w' <> three_images.
Proof. repeat split; discriminate. Qed.

(** C9 as stated fails: the second call with the stale index removes a
    second, different element ([f2] after [f1]). *)
Lemma removeFile_stale_index_removes_another :
  let w1 := exec (removeFile images 0) three_images in
  let w2 := exec (removeFile images 0) w1 in
  obj_get (files three_images) images = Some [f1; f2; f3] /\
  obj_get (files w1) images = Some [f2; f3] /\
  obj_get (files w2) images = Some [f3] /\
  w2 <> w1.
Proof. repeat split; discriminate. Qed.

(** * Beyond the claims *)

Section MoreFacts.

Context {File : Type}.
Implicit Types (fs o : FileState File) (w : World File) (c k : Category).
Implicit Types (arr batch : list File) (server : Server File).

Lemma js_or_truthy (a b : JsValue) :
  truthy b = true -> truthy (js_or a b) = true.
Proof. intros Hb. unfold js_or. now destruct (truthy a) eqn:Ha. Qed.

Lemma requests_app (t u : list (Event File)) :
  requests (t ++ u) = requests t ++ requests u.
Proof.
  induction t as [|[req|msg|e] t IH]; simpl; [reflexivity| |exact IH..].
  now rewrite IH.
Qed.

Lemma confirmations_app (t u : list (Event File)) :
  confirmations (t ++ u) = confirmations t ++ confirmations u.
Proof.
  induction t as [|[req|msg|e] t IH]; simpl; [reflexivity|exact IH| |exact IH].
  now rewrite IH.
Qed.

Ltac run_submit Hhas :=
  unfold handleSubmit, bind, getFiles; rewrite Hhas; simpl;
  unfold lift; rewrite append_all_spec;
  unfold try_catch, bind, fetch; fold (upload_request (File := File)).

(** Every way [handleSubmit] can end. *)
Lemma handleSubmit_cases server w :
  (hasFiles (files w) = false /\
   handleSubmit server w
   = (Ok tt, mkWorld (files w) (JStr no_files_message) (trace w)))
  \/ (hasFiles (files w) = true /\
      exists (r : Response) (listed : JsValue),
        server (upload_request (files w)) = Responded r /\
        ok r = true /\
        handleSubmit server w
        = (Ok tt,
           mkWorld empty_files (JStr empty_string)
             (trace w
              ++ [EFetch (upload_request (files w));
                  EAlert ("Files uploaded successfully: "
                          ++ template_slot (JSON_stringify listed))%string])))
  \/ (hasFiles (files w) = true /\
      exists (v : JsValue) (quiet : list (Event File)),
        truthy v = true /\
        confirmations quiet = [] /\
        requests quiet = [] /\
        handleSubmit server w
        = (Ok tt,
           mkWorld (files w) v
             (trace w ++ EFetch (upload_request (files w)) :: quiet))).
Proof.
  destruct (hasFiles (files w)) eqn:Hhas.
  2:{ left. split; [reflexivity|]. now apply handleSubmit_nothing. }
  right.
  destruct (server (upload_request (files w))) as [e|r] eqn:Hsrv.
  { right. split; [reflexivity|].
    exists (js_or (message e) (JStr "Upload error occurred")),
           [EConsoleError e].
    rewrite (handleSubmit_rejected _ _ _ Hhas Hsrv).
    repeat split. now apply js_or_truthy. }
  destruct (json_body r) as [result|e] eqn:Hbody.
  2:{ right. split; [reflexivity|].
      exists (js_or (message e) (JStr "Upload error occurred")),
             [EConsoleError e].
      rewrite (handleSubmit_unparsable _ _ _ _ Hhas Hsrv Hbody).
      repeat split. now apply js_or_truthy. }
  destruct (ok r) eqn:Hok.
  - destruct (get_prop result "uploaded_files") as [listed|e] eqn:Hprop.
    + left. split; [reflexivity|]. exists r, listed.
      split; [reflexivity|]. split; [exact Hok|].
      now apply (handleSubmit_accepted server w r result).
    + right. split; [reflexivity|].
      exists (js_or (message e) (JStr "Upload error occurred")),
             [EConsoleError e].
      split; [now apply js_or_truthy|]. split; [reflexivity|].
      split; [reflexivity|].
      run_submit Hhas. unfold upload_request in *.
      rewrite Hsrv. simpl. rewrite Hbody. simpl. rewrite Hok, Hprop. simpl.
      now rewrite <- app_assoc.
  - destruct (get_prop result "error") as [reported|e] eqn:Hprop.
    + right. split; [reflexivity|].
      exists (js_or reported (JStr "Upload failed")), [].
      split; [now apply js_or_truthy|]. split; [reflexivity|].
      split; [reflexivity|].
      now apply (handleSubmit_refused server w r result).
    + right. split; [reflexivity|].
      exists (js_or (message e) (JStr "Upload error occurred")),
             [EConsoleError e].
      split; [now apply js_or_truthy|]. split; [reflexivity|].
      split; [reflexivity|].
      run_submit Hhas. unfold upload_request in *.
      rewrite Hsrv. simpl. rewrite Hbody. simpl. rewrite Hok, Hprop. simpl.
      now rewrite <- app_assoc.
Qed.

Lemma handleSubmit_ok server w : outcome (handleSubmit server) w = Ok tt.
Proof.
  unfold outcome.
  destruct (handleSubmit_cases server w)
    as [[_ H] | [(_ & r & listed & _ & _ & H) | (_ & v & q & _ & _ & _ & H)]];
    now rewrite H.
Qed.

Lemma handle_ok (ev : UiEvent File) w :
  wf_files (files w) -> outcome (handle ev) w = Ok tt.
Proof.
  intros Hwf. destruct ev as [c [batch|]|c index|server]; cbn [handle].
  - reflexivity.
  - reflexivity.
  - unfold outcome.
    now rewrite (removeFile_present _ _ _ _ (wf_files_get _ c Hwf)).
  - apply handleSubmit_ok.
Qed.

Lemma filter_from_beyond {A} (t : Z) (l : list A) :
  forall k : Z,
    k + Z.of_nat (List.length l) <= t ->
    filter_from (fun _ j => negb (j =? t)) k l = l.
Proof.
  induction l as [|x rest IH]; intros k Hk; simpl in *; [reflexivity|].
  replace (k =? t) with false by lia. simpl. f_equal. apply IH. lia.
Qed.

Lemma map_from_nth {A B} (f : A -> Z -> B) (l : list A) :
  forall (k : Z) (i : nat),
    nth_error (map_from f k l) i
    = option_map (fun x => f x (k + Z.of_nat i)) (nth_error l i).
Proof.
  induction l as [|x rest IH]; intros k i; destruct i as [|i]; simpl;
    try reflexivity.
  - now rewrite Z.add_0_r.
  - rewrite IH. destruct (nth_error rest i); simpl; [|reflexivity].
    do 2 f_equal. lia.
Qed.

Lemma payload_nonempty fs :
  wf_files fs -> hasFiles fs = true -> payload fs <> [].
Proof.
  intros Hwf Hhas. rewrite (payload_wf _ Hwf).
  destruct (wf_files_inv _ Hwf) as (a & b & x & d & ->).
  unfold staged. simpl.
  destruct a; [|discriminate]. destruct b; [|discriminate].
  destruct x; [|discriminate]. destruct d; [|discriminate].
  discriminate Hhas.
Qed.


Lemma handle_error (ev : UiEvent File) w :
  error w = JStr empty_string \/ truthy (error w) = true ->
  error (exec (handle ev) w) = JStr empty_string
  \/ truthy (error (exec (handle ev) w)) = true.
Proof.
  intros IH. destruct ev as [c [batch|]|c index|server]; cbn [handle].
  - now left.
  - exact IH.
  - unfold exec, removeFile, setFiles.
    destruct (obj_get (files w) c); exact IH.
  - unfold exec.
    destruct (handleSubmit_cases server w)
      as [[_ H] | [(_ & r & listed & _ & _ & H)
                  | (_ & v & q & Hv & _ & _ & H)]];
      rewrite H; simpl; auto.
Qed.

Lemma reachable_error_shape w :
  reachable w -> error w = JStr empty_string \/ truthy (error w) = true.
Proof.
  induction 1 as [|w ev _ IH]; [now left | now apply handle_error].
Qed.

End MoreFacts.

Section Extras.

Context {File : Type}.
Implicit Types (fs o : FileState File) (w : World File) (c k : Category).
Implicit Types (arr batch : list File) (server : Server File).

(** X1. Whatever the user does, the file state keeps its four keys, in
    the order images, pdf, json, txt, so reading any category never
    gives [undefined]. *)
Theorem reachable_keys w :
  reachable w ->
  Object_keys (files w) = [images; pdf; json; txt]
  /\ forall c, exists arr, obj_get (files w) c = Some arr.
Proof.
  intros Hw. pose proof (reachable_wf w Hw) as Hwf.
  split; [exact Hwf|].
  intros c. exists (staged (files w) c). now apply wf_files_get.
Qed.

(** X2. The error cell only ever holds the empty string or a truthy
    value: every [setError] is given a non-empty literal, [""], or an
    [a || literal] with a non-empty literal. *)
Theorem reachable_error w :
  reachable w -> error w = JStr empty_string \/ truthy (error w) = true.
Proof. apply reachable_error_shape. Qed.

(** X3. In a state the component can reach no handler throws, whatever
    category, selection, index or server answer it is given. *)
Theorem reachable_never_throws w (ev : UiEvent File) :
  reachable w -> outcome (handle ev) w = Ok tt.
Proof. intros Hw. apply handle_ok. now apply reachable_wf. Qed.

Lemma handle_trace (ev : UiEvent File) w :
  wf_files (files w) ->
  trace (exec (handle ev) w) = trace w
  \/ exists quiet,
       requests quiet = []
       /\ (List.length (confirmations quiet) <= 1)%nat
       /\ hasFiles (files w) = true
       /\ trace (exec (handle ev) w)
          = trace w ++ EFetch (upload_request (files w)) :: quiet.
Proof.
  intros Hwf. destruct ev as [c [batch|]|c index|server]; cbn [handle].
  - now left.
  - now left.
  - left. unfold exec.
    now rewrite (removeFile_present _ _ _ _ (wf_files_get _ c Hwf)).
  - unfold exec.
    destruct (handleSubmit_cases server w)
      as [[_ H] | [(Hhas & r & listed & _ & _ & H)
                  | (Hhas & v & q & _ & Hq & Hr & H)]];
      rewrite H; simpl.
    + now left.
    + right. eexists. split; [|split; [|split; [exact Hhas|reflexivity]]].
      * reflexivity.
      * simpl. lia.
    + right. exists q. rewrite Hq. simpl.
      split; [exact Hr|]. split; [lia|]. split; [exact Hhas|reflexivity].
Qed.

(** X4. Every request the component has ever sent is a POST to the one
    upload address and carries at least one file: an empty form is never
    posted. *)
Theorem reachable_requests w :
  reachable w ->
  Forall (fun req => url req = "http://localhost:5000/upload"
                     /\ method req = "POST"
                     /\ body req <> [])
         (requests (trace w)).
Proof.
  induction 1 as [|w ev Hw IH]; [constructor|].
  pose proof (reachable_wf w Hw) as Hwf.
  destruct (handle_trace ev w Hwf) as [-> | (q & Hq & _ & Hhas & ->)];
    [exact IH|].
  rewrite requests_app. simpl. rewrite Hq.
  apply Forall_app. split; [exact IH|].
  constructor; [|constructor].
  repeat split. now apply payload_nonempty.
Qed.

(** X5. A confirmation is only ever shown for a request that was sent:
    the alerts raised never outnumber the requests. *)
Theorem reachable_confirmations w :
  reachable w ->
  (List.length (confirmations (trace w))
   <= List.length (requests (trace w)))%nat.
Proof.
  induction 1 as [|w ev Hw IH]; [simpl; lia|].
  pose proof (reachable_wf w Hw) as Hwf.
  destruct (handle_trace ev w Hwf) as [-> | (q & Hq & Hc & _ & ->)];
    [exact IH|].
  rewrite requests_app, confirmations_app. simpl.
  rewrite Hq, !length_app. simpl. lia.
Qed.

(** X6. A submission is all or nothing. Either it raises exactly one
    confirmation, empties every category and clears the error, or it
    raises none, keeps the staged files as they were and leaves a
    truthy value in the error cell. *)
Theorem handleSubmit_all_or_nothing server w :
  let w' := exec (handleSubmit server) w in
  (files w' = empty_files
   /\ error w' = JStr empty_string
   /\ exists msg,
        confirmations (trace w') = confirmations (trace w) ++ [msg])
  \/ (files w' = files w
      /\ truthy (error w') = true
      /\ confirmations (trace w') = confirmations (trace w)).
Proof.
  intros w'. subst w'. unfold exec.
  destruct (handleSubmit_cases server w)
    as [[_ H] | [(_ & r & listed & _ & _ & H)
                | (_ & v & q & Hv & Hq & _ & H)]];
    rewrite H; simpl.
  - right. now repeat split.
  - left. repeat split. eexists. rewrite confirmations_app. reflexivity.
  - right. repeat split; [exact Hv|].
    rewrite confirmations_app. simpl. rewrite Hq. apply app_nil_r.
Qed.


(** X8. When the answer has a success status but its JSON value has no
    [uploaded_files] member, the confirmation still appears, reading
    "Files uploaded successfully: undefined", and the form is reset. *)
Theorem handleSubmit_success_nothing_listed server w (r : Response)
    (result : JsValue) :
  hasFiles (files w) = true ->
  server (upload_request (files w)) = Responded r ->
  ok r = true ->
  json_body r = Ok result ->
  get_prop result "uploaded_files" = Ok JUndefined ->
  handleSubmit server w
  = (Ok tt,
     mkWorld empty_files (JStr empty_string)
       (trace w ++ [EFetch (upload_request (files w));
                    EAlert "Files uploaded successfully: undefined"])).
Proof.
  intros Hhas Hsrv Hok Hbody Hprop.
  now rewrite (handleSubmit_accepted server w r result JUndefined).
Qed.

(** X9. [removeFile] with an index that is no position of the sequence,
    negative or at or past its length, changes nothing at all. *)
Theorem removeFile_no_such_position c w arr (index : Z) :
  obj_get (files w) c = Some arr ->
  index < 0 \/ Z.of_nat (List.length arr) <= index ->
  removeFile c index w = (Ok tt, w).
Proof.
  intros Hget Hout. rewrite (removeFile_present _ _ _ _ Hget).
  replace (Array_filter (fun _ j => negb (j =? index)) arr) with arr.
  - now rewrite (obj_set_same _ _ _ Hget), world_eta.
  - symmetry. destruct Hout as [Hneg | Hpast].
    + now apply Array_filter_negative.
    + unfold Array_filter. apply filter_from_beyond. lia.
Qed.

End Extras.

Section ExtrasView.

Context {File : Type}.
Variable name : File -> string.
Variable invalid_child_error : JsValue -> JsError.
Implicit Types (fs o : FileState File) (w : World File) (c k : Category).
Implicit Types (arr batch : list File) (server : Server File).

Lemma In_map_from {A B} (f : A -> Z -> B) (l : list A) (k : Z) (y : B) :
  In y (map_from f k l) ->
  exists (i : nat) (x : A),
    nth_error l i = Some x /\ y = f x (k + Z.of_nat i).
Proof.
  intros Hin. apply In_nth_error in Hin. destruct Hin as [i Hi].
  rewrite map_from_nth in Hi.
  destruct (nth_error l i) as [x|] eqn:Hx; [|discriminate].
  exists i, x. split; [exact Hx|]. simpl in Hi. congruence.
Qed.


Lemma FileSelector_present (props : FileSelectorProps) fs arr :
  obj_get fs (type props) = Some arr ->
  FileSelector name props fs
  = Ok (mkFileSelectorView
          (label props)
          (mkFileInput (accept props)
             (match multiple props with Some b => b | None => false end)
             (fun selectedFiles => Select (type props) selectedFiles))
          (if 0 <? Z.of_nat (List.length arr) then
             Some (Array_map
                     (fun file index =>
                        mkChip index (name file) (Remove (type props) index))
                     arr)
           else None)).
Proof. intros H. unfold FileSelector. now rewrite H. Qed.

(** X10. Edits of two different categories do not interfere: selecting
    and removing, in any combination, give the same state in either
    order. *)
Theorem edits_commute w c1 c2 (sel1 sel2 : option (list File)) (i1 i2 : Z) :
  wf_files (files w) ->
  c1 <> c2 ->
  exec (handleFileChange c2 sel2) (exec (handleFileChange c1 sel1) w)
  = exec (handleFileChange c1 sel1) (exec (handleFileChange c2 sel2) w)
  /\ exec (removeFile c2 i2) (exec (removeFile c1 i1) w)
     = exec (removeFile c1 i1) (exec (removeFile c2 i2) w)
  /\ exec (removeFile c2 i2) (exec (handleFileChange c1 sel1) w)
     = exec (handleFileChange c1 sel1) (exec (removeFile c2 i2) w).
Proof.
  intros Hwf Hne. destruct w as [fs err tr]. simpl in Hwf.
  destruct (wf_files_inv _ Hwf) as (a & b & x & d & ->).
  destruct c1, c2; try congruence;
    destruct sel1 as [s1|], sel2 as [s2|]; repeat split; reflexivity.
Qed.

(** X11. The delete icon of the chip shown at position [i] of a card
    removes the very file whose name the chip displays, and no other:
    the chip is keyed and wired with its own position. *)
Theorem chip_delete_removes_its_file (props : FileSelectorProps) w arr
    (view : FileSelectorView File) (chips : list (Chip File))
    (chip : Chip File) (i : nat) :
  obj_get (files w) (type props) = Some arr ->
  FileSelector name props (files w) = Ok view ->
  selected view = Some chips ->
  nth_error chips i = Some chip ->
  exists file,
    nth_error arr i = Some file
    /\ chip_label chip = name file
    /\ chip_key chip = Z.of_nat i
    /\ arr = firstn i arr ++ file :: skipn (S i) arr
    /\ handle (chip_onDelete chip) w
       = (Ok tt,
          mkWorld (obj_set (files w) (type props)
                     (firstn i arr ++ skipn (S i) arr))
                  (error w) (trace w)).
Proof.
  intros Hget Hview Hsel Hnth.
  rewrite (FileSelector_present _ _ _ Hget) in Hview.
  injection Hview as <-. simpl in Hsel.
  destruct (0 <? Z.of_nat (List.length arr)); [|discriminate].
  injection Hsel as <-. unfold Array_map in Hnth.
  rewrite map_from_nth in Hnth.
  destruct (nth_error arr i) as [file|] eqn:Hfile; [|discriminate].
  simpl in Hnth. injection Hnth as <-. simpl.
  exists file. split; [reflexivity|]. split; [reflexivity|].
  split; [reflexivity|].
  assert (Hi : (i < List.length arr)%nat).
  { apply nth_error_Some. congruence. }
  destruct (split_at_position arr i Hi) as (x & Hx & Hsplit).
  assert (x = file) by congruence. subst x.
  split; [exact Hsplit|].
  rewrite (removeFile_present _ _ _ _ Hget).
  now rewrite Array_filter_position.
Qed.


(** X13. After a confirmed upload the form renders exactly as it does
    right after mount: no chips, no banner. *)
Theorem App_after_success server w (r : Response) (result : JsValue) :
  hasFiles (files w) = true ->
  server (upload_request (files w)) = Responded r ->
  ok r = true ->
  json_body r = Ok result ->
  result <> JNull ->
  result <> JUndefined ->
  App name invalid_child_error (exec (handleSubmit server) w)
  = App name invalid_child_error mount.
Proof.
  intros Hhas Hsrv Hok Hbody Hnull Hundef.
  destruct (get_prop_defined result "uploaded_files" Hnull Hundef)
    as [listed Hlisted].
  unfold exec.
  now rewrite (handleSubmit_accepted server w r result listed).
Qed.

(** X14. After a submission that was rejected or answered with a
    failure status, submitting again sends the same request once more:
    the staged files need not be selected anew. *)
Theorem handleSubmit_retry_resends server1 server2 w :
  hasFiles (files w) = true ->
  (forall r, server1 (upload_request (files w)) = Responded r ->
             ok r = false) ->
  requests (trace (exec (handleSubmit server2)
                        (exec (handleSubmit server1) w)))
  = requests (trace w)
    ++ [upload_request (files w); upload_request (files w)].
Proof.
  intros Hhas Hfail. unfold exec at 2.
  destruct (handleSubmit_cases server1 w)
    as [[Hno _] | [(_ & r & listed & Hsrv & Hok & _)
                  | (_ & v & q & _ & _ & Hq & H1)]].
  - congruence.
  - rewrite (Hfail r Hsrv) in Hok. discriminate.
  - rewrite H1. cbn [snd].
    destruct (handleSubmit_one_request server2
                (mkWorld (files w) v
                   (trace w ++ EFetch (upload_request (files w)) :: q)) Hhas)
      as (fs' & v' & rest & H2 & Hrest).
    unfold exec. rewrite H2. cbn [snd trace files].
    rewrite !requests_app. simpl. rewrite Hq, Hrest. simpl.
    now rewrite <- app_assoc.
Qed.

(** X15. After a confirmed upload, submitting again sends nothing:
    the categories are empty, so the second call only sets the no-files
    message. *)
Theorem handleSubmit_again_after_success server1 server2 w (r : Response)
    (result : JsValue) :
  hasFiles (files w) = true ->
  server1 (upload_request (files w)) = Responded r ->
  ok r = true ->
  json_body r = Ok result ->
  result <> JNull ->
  result <> JUndefined ->
  let w1 := exec (handleSubmit server1) w in
  exec (handleSubmit server2) w1
  = mkWorld empty_files
            (JStr "Please select at least one file before submitting.")
            (trace w1).
Proof.
  intros Hhas Hsrv Hok Hbody Hnull Hundef w1.
  destruct (get_prop_defined result "uploaded_files" Hnull Hundef)
    as [listed Hlisted].
  subst w1. unfold exec at 2 3.
  rewrite (handleSubmit_accepted server1 w r result listed) by assumption.
  unfold exec. now rewrite handleSubmit_nothing.
Qed.

(** X16. Every event the rendered form can raise is handled without
    throwing, and every delete it offers points at a position that
    exists, so it removes exactly one file. *)
Theorem offered_events_are_safe w (v : AppView File) (ev : UiEvent File) :
  wf_files (files w) ->
  App name invalid_child_error w = Ok v ->
  offers v ev ->
  outcome (handle ev) w = Ok tt
  /\ forall c index,
       ev = Remove c index ->
       0 <= index < Z.of_nat (List.length (staged (files w) c)).
Proof.
  intros Hwf Hview Hoff. split; [now apply handle_ok|].
  intros c index ->.
  destruct w as [fs err tr]. simpl in *.
  destruct (wf_files_inv _ Hwf) as (a & b & x & d & ->).
  unfold App in Hview. simpl in Hview.
  destruct (renderable err); simpl in Hview; [|discriminate].
  injection Hview as <-.
  destruct Hoff as [(card & sel & Hin & Hev)
                   | [(card & chips & chip & Hin & Hsel & Hchip & Hev)
                     | (server & Hev)]].
  - simpl in Hin.
    destruct Hin as [<- | [<- | [<- | [<- | []]]]]; discriminate Hev.
  - simpl in Hin.
    destruct Hin as [<- | [<- | [<- | [<- | []]]]]; simpl in Hsel;
      match type of Hsel with
      | (if ?cond then _ else _) = _ => destruct cond; [|discriminate]
      end;
      injection Hsel as <-;
      apply In_map_from in Hchip;
      destruct Hchip as (i & file & Hnth & ->);
      simpl in Hev; injection Hev as -> ->;
      assert (Hi : (i < List.length _)%nat)
        by (apply nth_error_Some; rewrite Hnth; discriminate);
      unfold staged; simpl; lia.
  - discriminate Hev.
Qed.

End ExtrasView.

(** * The further properties on sample runs *)

Import Sessions.

Lemma reachable_keys_witness :
  Object_keys (files after_refusal) = [images; pdf; json; txt]
  /\ forall c, exists arr, obj_get (files after_refusal) c = Some arr.
Proof.
  apply (reachable_keys after_refusal).
  unfold after_refusal. apply reachable_step, reachable_step, reachable_mount.
Defined.

Lemma reachable_error_witness :
  error after_refusal = JStr empty_string
  \/ truthy (error after_refusal) = true.
Proof.
  apply (reachable_error after_refusal).
  unfold after_refusal. apply reachable_step, reachable_step, reachable_mount.
Defined.

Lemma reachable_never_throws_witness :
  outcome (handle (Remove pdf 7)) after_refusal = Ok tt.
Proof.
  apply (reachable_never_throws after_refusal (Remove pdf 7)).
  unfold after_refusal. apply reachable_step, reachable_step, reachable_mount.
Defined.

Lemma reachable_requests_witness :
  Forall (fun req : Request string =>
            url req = "http://localhost:5000/upload"
            /\ method req = "POST"
            /\ body req <> [])
         (requests (trace after_refusal)).
Proof.
  apply (reachable_requests after_refusal).
  unfold after_refusal. apply reachable_step, reachable_step, reachable_mount.
Defined.

Lemma reachable_confirmations_witness :
  (List.length (confirmations (trace after_upload))
   <= List.length (requests (trace after_upload)))%nat.
Proof.
  apply (reachable_confirmations after_upload).
  unfold after_upload. apply reachable_step, reachable_step, reachable_mount.
Defined.


Lemma handleSubmit_success_nothing_listed_witness :
  handleSubmit accepts_silently one_image
  = (Ok tt,
     mkWorld empty_files (JStr empty_string)
       [EFetch (upload_request (files one_image));
        EAlert "Files uploaded successfully: undefined"]).
Proof.
  apply (handleSubmit_success_nothing_listed accepts_silently one_image
           (mkResponse 200 (Ok (JObj []))) (JObj []));
    reflexivity.
Defined.

Lemma removeFile_no_such_position_witness :
  removeFile images (-1) three_images = (Ok tt, three_images)
  /\ removeFile images 3 three_images = (Ok tt, three_images).
Proof.
  split.
  - apply (removeFile_no_such_position images three_images [f1; f2; f3] (-1));
      [reflexivity | left; lia].
  - apply (removeFile_no_such_position images three_images [f1; f2; f3] 3);
      [reflexivity | right; simpl; lia].
Defined.

Lemma edits_commute_witness :
  exec (handleFileChange pdf (Some [f3]))
       (exec (handleFileChange images None) mixed)
  = exec (handleFileChange images None)
         (exec (handleFileChange pdf (Some [f3])) mixed)
  /\ exec (removeFile pdf 0) (exec (removeFile images 1) mixed)
     = exec (removeFile images 1) (exec (removeFile pdf 0) mixed)
  /\ exec (removeFile pdf 0) (exec (handleFileChange images None) mixed)
     = exec (handleFileChange images None) (exec (removeFile pdf 0) mixed).
Proof.
  apply (edits_commute mixed images pdf None (Some [f3]) 1 0);
    [reflexivity | discriminate].
Defined.

Lemma chip_delete_removes_its_file_witness :
  exists file,
    nth_error [f1; f2; f3] 1 = Some file
    /\ chip_label (mkChip 1 f2 (Remove (File := string) images 1))
       = name_of file
    /\ chip_key (mkChip 1 f2 (Remove (File := string) images 1)) = 1
    /\ [f1; f2; f3] = firstn 1 [f1; f2; f3] ++ file :: skipn 2 [f1; f2; f3]
    /\ handle (chip_onDelete (mkChip 1 f2 (Remove images 1))) three_images
       = (Ok tt,
          mkWorld [(images, [f1; f3]); (pdf, []); (json, []); (txt, [])]
                  (JStr "Upload failed") []).
Proof.
  exact (chip_delete_removes_its_file name_of images_props three_images
           [f1; f2; f3] _ _ (mkChip 1 f2 (Remove images 1)) 1%nat
           eq_refl eq_refl eq_refl eq_refl).
Defined.


Lemma App_after_success_witness :
  App name_of react_error (exec (handleSubmit accepts) one_image)
  = App name_of react_error mount.
Proof.
  apply (App_after_success name_of react_error accepts one_image
           (mkResponse 200 (Ok (JObj [("uploaded_files", JArr [JStr f1])])))
           (JObj [("uploaded_files", JArr [JStr f1])]));
    first [reflexivity | discriminate].
Defined.

Lemma handleSubmit_retry_resends_witness :
  requests (trace (exec (handleSubmit accepts)
                        (exec (handleSubmit rejects) one_image)))
  = [] ++ [upload_request (files one_image);
           upload_request (files one_image)].
Proof.
  apply (handleSubmit_retry_resends rejects accepts one_image);
    [reflexivity|].
  intros r Hr. injection Hr as <-. reflexivity.
Defined.

Lemma handleSubmit_again_after_success_witness :
  exec (handleSubmit accepts) (exec (handleSubmit accepts) one_image)
  = mkWorld empty_files
            (JStr "Please select at least one file before submitting.")
            (trace (exec (handleSubmit accepts) one_image)).
Proof.
  apply (handleSubmit_again_after_success accepts accepts one_image
           (mkResponse 200 (Ok (JObj [("uploaded_files", JArr [JStr f1])])))
           (JObj [("uploaded_files", JArr [JStr f1])]));
    first [reflexivity | discriminate].
Defined.

Lemma offered_events_are_safe_witness :
  outcome (handle (Remove images 0)) one_image = Ok tt
  /\ forall c index,
       Remove (File := string) images 0 = Remove c index ->
       0 <= index < Z.of_nat (List.length (staged (files one_image) c)).
Proof.
  eapply (offered_events_are_safe name_of react_error one_image);
    [reflexivity | reflexivity |].
  right. left. eexists _, _, _.
  split; [left; reflexivity|]. split; [reflexivity|].
  split; [left; reflexivity | reflexivity].
Defined.

